(** * wavhdr.h: the canonical 44-byte RIFF/WAVE header and its three macros

    A shallow embedding of [src/wavhdr.h]: the struct [wavHeader_t] as a
    record, the macros [TEST_WAV_COMPAT], [WAV_LEN] and [WAV_NSAMPLES] as
    evaluations of C expressions over the header [wav] points to, with C's
    integer promotions, conversions and undefined behaviour written out.

    The C integer model is the one of the mainstream ABIs (ILP32, LP64):
    [int] and [unsigned int] are 32 bits wide, so [uint8_t] and [uint16_t]
    promote to [int] and [uint32_t] is [unsigned int]; the execution
    character set is ASCII; struct members are naturally aligned.  The
    argument [wav] of a macro is a valid pointer whose evaluation has no
    effect of its own.

    The header has no code that writes or reads the struct as bytes: the
    serialized form is modelled from the specification and marked so. *)

From Stdlib Require Import ZArith List Bool Lia String Ascii.
Import ListNotations.

Local Open Scope Z_scope.

(** ** Outcomes of evaluating a C expression *)

(** The error kinds the specification's section 7 names. *)
Inductive ErrorKind : Type :=
| DivisionByZero
| InvalidHeader.

(** What evaluating an expression gives: a value; an explicit error result
    handed to the caller (the specification's notion, which no macro of the
    header builds); or nothing that C defines (division by zero, signed
    overflow, an index outside an array). *)
Inductive outcome (A : Type) : Type :=
| Value (a : A)
| ErrorResult (k : ErrorKind)
| Undefined.

Arguments Value {A} a.
Arguments ErrorResult {A} k.
Arguments Undefined {A}.

Definition outcome_map {A B : Type} (f : A -> B) (o : outcome A) : outcome B :=
  match o with
  | Value a => Value (f a)
  | ErrorResult k => ErrorResult k
  | Undefined => Undefined
  end.

(** ** The struct *)

(** [uint8_t x[4]]: four bytes, by position. *)
Record bytes4 : Type := B4 { byte0 : Z; byte1 : Z; byte2 : Z; byte3 : Z }.

(** [a[i]]; an index outside [0..3] is outside the array. *)
Definition index4 (a : bytes4) (i : Z) : outcome Z :=
  if i =? 0 then Value (byte0 a)
  else if i =? 1 then Value (byte1 a)
  else if i =? 2 then Value (byte2 a)
  else if i =? 3 then Value (byte3 a)
  else Undefined.

(** [typedef struct wavHeader { ... } wavHeader_t;] with the fields in the
    order of the declaration.  Integer fields hold the value as a [Z];
    [wf_header] below says that each one fits its declared width. *)
Record wavHeader_t : Type := mkWavHeader {
  RIFF : bytes4;          (* uint8_t  RIFF[4]        *)
  ChunkSize : Z;          (* uint32_t ChunkSize      *)
  WAVE : bytes4;          (* uint8_t  WAVE[4]        *)
  fmt : bytes4;           (* uint8_t  fmt[4]         *)
  Subchunk1Size : Z;      (* uint32_t Subchunk1Size  *)
  AudioFormat : Z;        (* uint16_t AudioFormat    *)
  NumOfChan : Z;          (* uint16_t NumOfChan      *)
  SamplesPerSec : Z;      (* uint32_t SamplesPerSec  *)
  bytesPerSec : Z;        (* uint32_t bytesPerSec    *)
  blockAlign : Z;         (* uint16_t blockAlign     *)
  bitsPerSample : Z;      (* uint16_t bitsPerSample  *)
  Subchunk2ID : bytes4;   (* uint8_t  Subchunk2ID[4] *)
  Subchunk2Size : Z       (* uint32_t Subchunk2Size  *)
}.

Definition in_u8 (z : Z) : bool := (0 <=? z) && (z <? 2 ^ 8).
Definition in_u16 (z : Z) : bool := (0 <=? z) && (z <? 2 ^ 16).
Definition in_u32 (z : Z) : bool := (0 <=? z) && (z <? 2 ^ 32).

Definition wf_bytes4 (a : bytes4) : bool :=
  in_u8 (byte0 a) && in_u8 (byte1 a) && in_u8 (byte2 a) && in_u8 (byte3 a).

(** Every field within the width its C type declares. *)
Definition wf_header (h : wavHeader_t) : bool :=
  wf_bytes4 (RIFF h) && in_u32 (ChunkSize h) && wf_bytes4 (WAVE h) &&
  wf_bytes4 (fmt h) && in_u32 (Subchunk1Size h) && in_u16 (AudioFormat h) &&
  in_u16 (NumOfChan h) && in_u32 (SamplesPerSec h) && in_u32 (bytesPerSec h) &&
  in_u16 (blockAlign h) && in_u16 (bitsPerSample h) &&
  wf_bytes4 (Subchunk2ID h) && in_u32 (Subchunk2Size h).

(** ** C integer arithmetic, 32-bit [int] *)

Definition INT_MIN : Z := - 2 ^ 31.
Definition INT_MAX : Z := 2 ^ 31 - 1.

Definition in_int (z : Z) : bool := (INT_MIN <=? z) && (z <=? INT_MAX).

(** A character constant has type [int] and the character's code as value. *)
Definition char_const (c : ascii) : Z := Z.of_N (N_of_ascii c).

(** The [int] a comparison or a logical operator yields: 1 or 0. *)
Definition c_truth (b : bool) : Z := if b then 1 else 0.

(** [a == b] has type [int] and value 1 or 0. *)
Definition c_eq (a b : Z) : Z := c_truth (a =? b).

(** [a / b] on [int]: truncates toward zero; a zero divisor and
    [INT_MIN / -1] are undefined. *)
Definition int_div (a b : Z) : outcome Z :=
  if b =? 0 then Undefined
  else if (a =? INT_MIN) && (b =? -1) then Undefined
  else Value (Z.quot a b).

(** [a * b] on [int]: signed overflow is undefined. *)
Definition int_mul (a b : Z) : outcome Z :=
  if in_int (a * b) then Value (a * b) else Undefined.

(** Conversion of an [int] to [unsigned int]: reduction modulo 2^32. *)
Definition uint_of_int (z : Z) : Z := z mod 2 ^ 32.

(** [a / b] on [unsigned int]: a zero divisor is undefined. *)
Definition uint_div (a b : Z) : outcome Z :=
  if b =? 0 then Undefined else Value (Z.quot a b).

(** ** Evaluation over the header [wav] points to *)

(** An expression is evaluated against the memory holding [*wav]; it gives
    an outcome and leaves a memory behind. *)
Definition Eval (A : Type) : Type := wavHeader_t -> outcome A * wavHeader_t.

Definition ret {A : Type} (a : A) : Eval A := fun m => (Value a, m).

Definition bind {A B : Type} (x : Eval A) (k : A -> Eval B) : Eval B :=
  fun m =>
    match x m with
    | (Value a, m') => k a m'
    | (ErrorResult e, m') => (ErrorResult e, m')
    | (Undefined, m') => (Undefined, m')
    end.

(** [(wav)->f] for a scalar field [f]. *)
Definition load (f : wavHeader_t -> Z) : Eval Z := fun m => (Value (f m), m).

(** [(wav)->f[i]] for an array field [f]. *)
Definition load_at (f : wavHeader_t -> bytes4) (i : Z) : Eval Z :=
  fun m => (index4 (f m) i, m).

(** The outcome of a side-effect-free operator applied to values. *)
Definition lift {A : Type} (o : outcome A) : Eval A := fun m => (o, m).

Declare Scope eval_scope.
Delimit Scope eval_scope with eval.
Notation "x <- c ;; k" := (bind c (fun x => k))
  (at level 61, c at next level, right associativity) : eval_scope.

Local Open Scope eval_scope.

(** [x && y]: [y] is evaluated only when [x] is nonzero; the result is 1 or 0. *)
Definition c_and (x y : Eval Z) : Eval Z :=
  a <- x ;;
  if a =? 0 then ret 0 else (b <- y ;; ret (c_truth (negb (b =? 0)))).

(** [x || y]: [y] is evaluated only when [x] is zero; the result is 1 or 0. *)
Definition c_or (x y : Eval Z) : Eval Z :=
  a <- x ;;
  if a =? 0 then (b <- y ;; ret (c_truth (negb (b =? 0)))) else ret 1.

Notation "x &&& y" := (c_and x y) (at level 40, left associativity) : eval_scope.
Notation "x ||| y" := (c_or x y) (at level 50, left associativity) : eval_scope.

(** ** The macros *)

(** [#define TEST_WAV_COMPAT(wav) ( (wav)->AudioFormat==1 &&
      ((wav)->NumOfChan==1 || (wav)->NumOfChan==2) &&
      (wav)->SamplesPerSec==16000 && (wav)->bitsPerSample==16 &&
      (wav)->Subchunk2ID[0]=='d' && (wav)->Subchunk2ID[3] == 'a' )] *)
Definition TEST_WAV_COMPAT : Eval Z :=
  (v <- load AudioFormat ;; ret (c_eq v 1))
  &&& ((v <- load NumOfChan ;; ret (c_eq v 1))
       ||| (v <- load NumOfChan ;; ret (c_eq v 2)))
  &&& (v <- load SamplesPerSec ;; ret (c_eq v 16000))
  &&& (v <- load bitsPerSample ;; ret (c_eq v 16))
  &&& (v <- load_at Subchunk2ID 0 ;; ret (c_eq v (char_const "d")))
  &&& (v <- load_at Subchunk2ID 3 ;; ret (c_eq v (char_const "a"))).

(** [#define WAV_LEN(wav) ( (wav)->Subchunk2Size )] *)
Definition WAV_LEN : Eval Z := load Subchunk2Size.

(** The divisor of [WAV_NSAMPLES]:
    [(((wav)->bitsPerSample/8)*(wav)->NumOfChan)], computed on [int] after
    the promotion of both [uint16_t] operands. *)
Definition WAV_NSAMPLES_divisor : Eval Z :=
  bps <- load bitsPerSample ;;
  q <- lift (int_div bps 8) ;;
  n <- load NumOfChan ;;
  lift (int_mul q n).

(** [#define WAV_NSAMPLES(wav)
      ( WAV_LEN((wav))/ (((wav)->bitsPerSample/8)*(wav)->NumOfChan) )]:
    the dividend is [unsigned int], so the [int] divisor is converted to
    [unsigned int] and the division is the unsigned one. *)
Definition WAV_NSAMPLES : Eval Z :=
  len <- WAV_LEN ;;
  d <- WAV_NSAMPLES_divisor ;;
  lift (uint_div len (uint_of_int d)).

(** ** The operations under the names the specification gives them *)

Definition isCompatible (h : wavHeader_t) : outcome bool :=
  outcome_map (fun v => negb (v =? 0)) (fst (TEST_WAV_COMPAT h)).

Definition wavLength (h : wavHeader_t) : outcome Z := fst (WAV_LEN h).

Definition wavSampleCount (h : wavHeader_t) : outcome Z := fst (WAV_NSAMPLES h).

(** The value of the divisor of [WAV_NSAMPLES] on [h]. *)
Definition sampleDivisor (h : wavHeader_t) : outcome Z :=
  fst (WAV_NSAMPLES_divisor h).

(** ** The declaration of the struct, member by member *)

Inductive ctype : Type := uint8_t | uint16_t | uint32_t.

Definition sizeof (t : ctype) : nat :=
  match t with uint8_t => 1 | uint16_t => 2 | uint32_t => 4 end%nat.

(** A member of [struct wavHeader] is either [uint8_t name[4]] or a scalar
    [t name]; each comes with the projection that reads it. *)
Inductive member : Type :=
| Array4 (name : string) (get : wavHeader_t -> bytes4)
| Scalar (name : string) (t : ctype) (get : wavHeader_t -> Z).

Definition member_name (m : member) : string :=
  match m with Array4 n _ => n | Scalar n _ _ => n end.

Definition member_size (m : member) : nat :=
  match m with
  | Array4 _ _ => (4 * sizeof uint8_t)%nat
  | Scalar _ t _ => sizeof t
  end.

(** Natural alignment: a scalar is aligned on its size, an array on the
    alignment of its elements. *)
Definition member_align (m : member) : nat :=
  match m with
  | Array4 _ _ => sizeof uint8_t
  | Scalar _ t _ => sizeof t
  end.

(** The members in the order of the declaration (lines 15 to 29). *)
Definition wavHeader_members : list member :=
  [ Array4 "RIFF" RIFF;
    Scalar "ChunkSize" uint32_t ChunkSize;
    Array4 "WAVE" WAVE;
    Array4 "fmt" fmt;
    Scalar "Subchunk1Size" uint32_t Subchunk1Size;
    Scalar "AudioFormat" uint16_t AudioFormat;
    Scalar "NumOfChan" uint16_t NumOfChan;
    Scalar "SamplesPerSec" uint32_t SamplesPerSec;
    Scalar "bytesPerSec" uint32_t bytesPerSec;
    Scalar "blockAlign" uint16_t blockAlign;
    Scalar "bitsPerSample" uint16_t bitsPerSample;
    Array4 "Subchunk2ID" Subchunk2ID;
    Scalar "Subchunk2Size" uint32_t Subchunk2Size ].

(** One row of a layout: where a member starts and how many bytes it takes. *)
Record slot : Type := mkSlot { slot_offset : nat; slot_size : nat; slot_name : string }.

(** The least multiple of [a] that is at least [off]. *)
Definition align_up (off a : nat) : nat := (((off + a - 1) / a) * a)%nat.

(** The layout of a struct whose members are naturally aligned: each member
    starts at the first suitably aligned offset after the previous one. *)
Fixpoint layout_from (off : nat) (ms : list member) : list slot :=
  match ms with
  | [] => []
  | m :: ms' =>
      let o := align_up off (member_align m) in
      mkSlot o (member_size m) (member_name m) :: layout_from (o + member_size m) ms'
  end.

Definition layout (ms : list member) : list slot := layout_from 0 ms.

Definition struct_align (ms : list member) : nat :=
  fold_right (fun m a => Nat.max (member_align m) a) 1%nat ms.

(** The first offset after the last member. *)
Definition layout_end (ls : list slot) : nat :=
  fold_left (fun _ s => (slot_offset s + slot_size s)%nat) ls 0%nat.

(** [sizeof (struct)]: the end of the last member, rounded up to the
    alignment of the struct. *)
Definition struct_size (ms : list member) : nat :=
  align_up (layout_end (layout ms)) (struct_align ms).

(** The bytes of a struct that belong to no member. *)
Definition struct_padding (ms : list member) : nat :=
  (struct_size ms - fold_right (fun m n => member_size m + n) 0 ms)%nat.

(** The table of the specification's section 3, row by row: offset, size,
    field. *)
Definition spec_layout : list slot :=
  [ mkSlot 0 4 "RIFF";
    mkSlot 4 4 "ChunkSize";
    mkSlot 8 4 "WAVE";
    mkSlot 12 4 "fmt";
    mkSlot 16 4 "Subchunk1Size";
    mkSlot 20 2 "AudioFormat";
    mkSlot 22 2 "NumOfChan";
    mkSlot 24 4 "SamplesPerSec";
    mkSlot 28 4 "bytesPerSec";
    mkSlot 32 2 "blockAlign";
    mkSlot 34 2 "bitsPerSample";
    mkSlot 36 4 "Subchunk2ID";
    mkSlot 40 4 "Subchunk2Size" ].

(** ** The serialized form *)

(** Modelled from the spec: the header file declares the struct and has no
    code that writes or reads it as bytes.  Sections 3, 4.1 and 9 describe
    the serialized form: each field written in declared order and width,
    multi-byte integers little-endian, tags as raw bytes.  [le_bytes w v]
    is the [w]-byte little-endian form of [v], least significant byte
    first. *)
Fixpoint le_bytes (w : nat) (v : Z) : list Z :=
  match w with
  | O => []
  | S w' => v mod 256 :: le_bytes w' (v / 256)
  end.

(** Modelled from the spec: the bytes of one field, a tag as its four raw
    bytes and an integer in [le_bytes] form at the width of its type. *)
Definition encode_member (h : wavHeader_t) (m : member) : list Z :=
  match m with
  | Array4 _ get => [byte0 (get h); byte1 (get h); byte2 (get h); byte3 (get h)]
  | Scalar _ t get => le_bytes (sizeof t) (get h)
  end.

(** Modelled from the spec: the encoder, missing from the header file;
    section 9 has it write each field in declared order and width, with
    nothing between two fields. *)
Definition encode (h : wavHeader_t) : list Z :=
  flat_map (encode_member h) wavHeader_members.

(** Modelled from the spec: the value of a little-endian byte sequence. *)
Fixpoint le_value (bs : list Z) : Z :=
  match bs with
  | [] => 0
  | b :: bs' => b + 256 * le_value bs'
  end.

(** Modelled from the spec: the [len] bytes that start at offset [off]. *)
Definition slice (off len : nat) (bs : list Z) : list Z := firstn len (skipn off bs).

(** Modelled from the spec: the little-endian integer of type [t] read at
    offset [off]. *)
Definition int_at (off : nat) (t : ctype) (bs : list Z) : Z :=
  le_value (slice off (sizeof t) bs).

(** Modelled from the spec: the four raw bytes of a tag read at offset
    [off]. *)
Definition tag_at (off : nat) (bs : list Z) : bytes4 :=
  B4 (nth off bs 0) (nth (off + 1) bs 0) (nth (off + 2) bs 0) (nth (off + 3) bs 0).

(** Modelled from the spec: the decoder, missing from the header file; it
    takes exactly 44 bytes (sections 3 and 6) and reads each field at the
    offset and width of the table of section 3. *)
Definition decode (bs : list Z) : option wavHeader_t :=
  if (List.length bs =? 44)%nat then
    Some {| RIFF := tag_at 0 bs;
            ChunkSize := int_at 4 uint32_t bs;
            WAVE := tag_at 8 bs;
            fmt := tag_at 12 bs;
            Subchunk1Size := int_at 16 uint32_t bs;
            AudioFormat := int_at 20 uint16_t bs;
            NumOfChan := int_at 22 uint16_t bs;
            SamplesPerSec := int_at 24 uint32_t bs;
            bytesPerSec := int_at 28 uint32_t bs;
            blockAlign := int_at 32 uint16_t bs;
            bitsPerSample := int_at 34 uint16_t bs;
            Subchunk2ID := tag_at 36 bs;
            Subchunk2Size := int_at 40 uint32_t bs |}
  else None.

(** Where the encoder puts a member that starts at [off]: a tag byte for
    byte, an integer with byte [i] of weight [256 ^ i]. *)
Definition encoded_at (h : wavHeader_t) (off : nat) (m : member) : Prop :=
  match m with
  | Array4 _ get =>
      forall i : nat, (i < 4)%nat ->
        Value (nth (off + i) (encode h) 0) = index4 (get h) (Z.of_nat i)
  | Scalar _ t get =>
      forall i : nat, (i < sizeof t)%nat ->
        nth (off + i) (encode h) 0 = (get h / 256 ^ Z.of_nat i) mod 256
  end.

(** ** Headers used as examples *)

Definition tag (a b c d : ascii) : bytes4 :=
  B4 (char_const a) (char_const b) (char_const c) (char_const d).

(** A canonical 16 kHz, 16-bit PCM header with [nch] channels and [len]
    payload bytes. *)
Definition pcm16k (nch len : Z) : wavHeader_t :=
  {| RIFF := tag "R" "I" "F" "F";
     ChunkSize := 36 + len;
     WAVE := tag "W" "A" "V" "E";
     fmt := tag "f" "m" "t" " ";
     Subchunk1Size := 16;
     AudioFormat := 1;
     NumOfChan := nch;
     SamplesPerSec := 16000;
     bytesPerSec := 16000 * 2 * nch;
     blockAlign := 2 * nch;
     bitsPerSample := 16;
     Subchunk2ID := tag "d" "a" "t" "a";
     Subchunk2Size := len |}.

Definition with_Subchunk2ID (t : bytes4) (h : wavHeader_t) : wavHeader_t :=
  mkWavHeader (RIFF h) (ChunkSize h) (WAVE h) (fmt h) (Subchunk1Size h)
    (AudioFormat h) (NumOfChan h) (SamplesPerSec h) (bytesPerSec h)
    (blockAlign h) (bitsPerSample h) t (Subchunk2Size h).

Definition with_RIFF (t : bytes4) (h : wavHeader_t) : wavHeader_t :=
  mkWavHeader t (ChunkSize h) (WAVE h) (fmt h) (Subchunk1Size h)
    (AudioFormat h) (NumOfChan h) (SamplesPerSec h) (bytesPerSec h)
    (blockAlign h) (bitsPerSample h) (Subchunk2ID h) (Subchunk2Size h).

Definition with_WAVE (t : bytes4) (h : wavHeader_t) : wavHeader_t :=
  mkWavHeader (RIFF h) (ChunkSize h) t (fmt h) (Subchunk1Size h)
    (AudioFormat h) (NumOfChan h) (SamplesPerSec h) (bytesPerSec h)
    (blockAlign h) (bitsPerSample h) (Subchunk2ID h) (Subchunk2Size h).

Definition hdr_mono : wavHeader_t := pcm16k 1 32000.
Definition hdr_stereo_4000 : wavHeader_t := pcm16k 2 4000.
Definition hdr_stereo_4001 : wavHeader_t := pcm16k 2 4001.
Definition hdr_dXXa : wavHeader_t := with_Subchunk2ID (tag "d" "X" "X" "a") hdr_mono.
Definition hdr_bad_magic : wavHeader_t :=
  with_WAVE (tag "A" "V" "I" " ") (with_RIFF (tag "J" "U" "N" "K") hdr_mono).
Definition hdr_no_channels : wavHeader_t := pcm16k 0 4000.

(** ** The conditions the specification states, for comparison *)

(** The condition of the specification's section 4.1 for a compatible
    header, as a boolean. *)
Definition compat_cond (h : wavHeader_t) : bool :=
  (AudioFormat h =? 1) && ((NumOfChan h =? 1) || (NumOfChan h =? 2)) &&
  (SamplesPerSec h =? 16000) && (bitsPerSample h =? 16) &&
  (byte0 (Subchunk2ID h) =? char_const "d") &&
  (byte3 (Subchunk2ID h) =? char_const "a").

(** Two headers that agree on what [TEST_WAV_COMPAT] reads. *)
Definition same_compat_inputs (h1 h2 : wavHeader_t) : Prop :=
  AudioFormat h1 = AudioFormat h2 /\ NumOfChan h1 = NumOfChan h2 /\
  SamplesPerSec h1 = SamplesPerSec h2 /\ bitsPerSample h1 = bitsPerSample h2 /\
  index4 (Subchunk2ID h1) 0 = index4 (Subchunk2ID h2) 0 /\
  index4 (Subchunk2ID h1) 3 = index4 (Subchunk2ID h2) 3.

(** An evaluation that, run on the header [h], returns a value and leaves
    the header as it found it. *)
Definition returns_unchanged {A : Type} (e : Eval A) (h : wavHeader_t) : Prop :=
  exists v : A, e h = (Value v, h).

(** * Properties *)

(** ** Evaluation lemmas *)

Lemma index4_first (a : bytes4) : index4 a 0 = Value (byte0 a).
Proof. reflexivity. Qed.

Lemma index4_last (a : bytes4) : index4 a 3 = Value (byte3 a).
Proof. reflexivity. Qed.

Lemma c_truth_zero (b : bool) : (c_truth b =? 0) = negb b.
Proof. destruct b; reflexivity. Qed.

Lemma c_and_truth (x y : Eval Z) (p q : bool) (h : wavHeader_t) :
  x h = (Value (c_truth p), h) -> y h = (Value (c_truth q), h) ->
  (x &&& y) h = (Value (c_truth (p && q)), h).
Proof.
  intros Hx Hy. unfold c_and, bind. rewrite Hx, c_truth_zero.
  destruct p; cbn [negb andb]; [|reflexivity].
  rewrite Hy. unfold ret. rewrite c_truth_zero, negb_involutive. reflexivity.
Qed.

Lemma c_or_truth (x y : Eval Z) (p q : bool) (h : wavHeader_t) :
  x h = (Value (c_truth p), h) -> y h = (Value (c_truth q), h) ->
  (x ||| y) h = (Value (c_truth (p || q)), h).
Proof.
  intros Hx Hy. unfold c_or, bind. rewrite Hx, c_truth_zero.
  destruct p; cbn [negb orb]; [reflexivity|].
  rewrite Hy. unfold ret. rewrite c_truth_zero, negb_involutive. reflexivity.
Qed.

Lemma TEST_WAV_COMPAT_eval (h : wavHeader_t) :
  TEST_WAV_COMPAT h = (Value (c_truth (compat_cond h)), h).
Proof.
  unfold TEST_WAV_COMPAT, compat_cond.
  repeat first [apply c_and_truth | apply c_or_truth]; reflexivity.
Qed.

Lemma isCompatible_eval (h : wavHeader_t) :
  isCompatible h = Value (compat_cond h).
Proof.
  unfold isCompatible. rewrite TEST_WAV_COMPAT_eval. cbn [fst outcome_map].
  now rewrite c_truth_zero, negb_involutive.
Qed.

Lemma compat_cond_true (h : wavHeader_t) :
  compat_cond h = true <->
  AudioFormat h = 1 /\ (NumOfChan h = 1 \/ NumOfChan h = 2) /\
  SamplesPerSec h = 16000 /\ bitsPerSample h = 16 /\
  byte0 (Subchunk2ID h) = char_const "d" /\
  byte3 (Subchunk2ID h) = char_const "a".
Proof.
  unfold compat_cond.
  rewrite !andb_true_iff, orb_true_iff, !Z.eqb_eq. tauto.
Qed.

Lemma compat_cond_ext (h1 h2 : wavHeader_t) :
  same_compat_inputs h1 h2 -> compat_cond h1 = compat_cond h2.
Proof.
  unfold same_compat_inputs. rewrite !index4_first, !index4_last.
  intros (Ha & Hn & Hs & Hb & H0 & H3).
  injection H0 as H0. injection H3 as H3.
  unfold compat_cond. now rewrite Ha, Hn, Hs, Hb, H0, H3.
Qed.

Lemma in_u16_range (z : Z) : in_u16 z = true -> 0 <= z < 2 ^ 16.
Proof.
  unfold in_u16. intros H. apply andb_prop in H. destruct H as [H1 H2].
  apply Z.leb_le in H1. apply Z.ltb_lt in H2. lia.
Qed.

Lemma in_u32_range (z : Z) : in_u32 z = true -> 0 <= z < 2 ^ 32.
Proof.
  unfold in_u32. intros H. apply andb_prop in H. destruct H as [H1 H2].
  apply Z.leb_le in H1. apply Z.ltb_lt in H2. lia.
Qed.

(** The integer fields of a well-formed header, each within its width. *)
Lemma wf_header_ranges (h : wavHeader_t) :
  wf_header h = true ->
  0 <= ChunkSize h < 2 ^ 32 /\ 0 <= Subchunk1Size h < 2 ^ 32 /\
  0 <= AudioFormat h < 2 ^ 16 /\ 0 <= NumOfChan h < 2 ^ 16 /\
  0 <= SamplesPerSec h < 2 ^ 32 /\ 0 <= bytesPerSec h < 2 ^ 32 /\
  0 <= blockAlign h < 2 ^ 16 /\ 0 <= bitsPerSample h < 2 ^ 16 /\
  0 <= Subchunk2Size h < 2 ^ 32.
Proof.
  unfold wf_header. intros H.
  repeat match goal with
         | H : _ && _ = true |- _ => apply andb_prop in H; destruct H
         end.
  repeat match goal with
         | |- _ <= _ < 2 ^ 16 => now apply in_u16_range
         | |- _ <= _ < 2 ^ 32 => now apply in_u32_range
         | |- _ /\ _ => split
         end.
Qed.

Ltac fields_in_range H := apply wf_header_ranges in H.

(** ** The compatibility check *)

(** C1. For every header [h], [isCompatible h] returns true if and only if
    [AudioFormat] is 1, [NumOfChan] is 1 or 2, [SamplesPerSec] is 16000,
    [bitsPerSample] is 16, [Subchunk2ID[0]] is ASCII 'd' (code 100) and
    [Subchunk2ID[3]] is ASCII 'a' (code 97).  The check always returns a
    boolean, and replacing every other field, and bytes 1 and 2 of
    [Subchunk2ID], by arbitrary values leaves the result unchanged. *)
Theorem isCompatible_iff (h : wavHeader_t) :
  (isCompatible h = Value true <->
     AudioFormat h = 1 /\ (NumOfChan h = 1 \/ NumOfChan h = 2) /\
     SamplesPerSec h = 16000 /\ bitsPerSample h = 16 /\
     index4 (Subchunk2ID h) 0 = Value (char_const "d") /\
     index4 (Subchunk2ID h) 3 = Value (char_const "a")) /\
  (char_const "d" = 100 /\ char_const "a" = 97) /\
  (exists b : bool, isCompatible h = Value b) /\
  (forall (riff wave fmt' : bytes4) (cs s1 bps ba s2 : Z) (t1 t2 : Z),
     isCompatible
       (mkWavHeader riff cs wave fmt' s1 (AudioFormat h) (NumOfChan h)
          (SamplesPerSec h) bps ba (bitsPerSample h)
          (B4 (byte0 (Subchunk2ID h)) t1 t2 (byte3 (Subchunk2ID h))) s2)
     = isCompatible h).
Proof.
  split; [split|split; [split; reflexivity|split]].
  - rewrite isCompatible_eval. intros H. injection H as H.
    apply compat_cond_true in H. rewrite index4_first, index4_last.
    intuition congruence.
  - rewrite index4_first, index4_last. intros (Ha & Hn & Hs & Hb & H0 & H3).
    injection H0 as H0. injection H3 as H3.
    rewrite isCompatible_eval. f_equal. apply compat_cond_true. tauto.
  - exists (compat_cond h). apply isCompatible_eval.
  - intros. rewrite !isCompatible_eval. reflexivity.
Qed.

(** The positive case of the specification's section 8: a canonical mono
    header with the tag "data" is compatible. *)
Lemma isCompatible_iff_witness : isCompatible hdr_mono = Value true.
Proof.
  apply (proj1 (isCompatible_iff hdr_mono)).
  repeat split; try reflexivity. left; reflexivity.
Defined.

(** C4. A header with [AudioFormat] 1, one or two channels, 16000 samples
    per second, 16 bits per sample and a [Subchunk2ID] whose byte 0 is 'd'
    and byte 3 is 'a' is compatible whatever bytes 1 and 2 are, also when
    they make the tag differ from "data". *)
Theorem isCompatible_weak_tag (h : wavHeader_t) (t1 t2 : Z) :
  AudioFormat h = 1 -> (NumOfChan h = 1 \/ NumOfChan h = 2) ->
  SamplesPerSec h = 16000 -> bitsPerSample h = 16 ->
  Subchunk2ID h = B4 (char_const "d") t1 t2 (char_const "a") ->
  (t1 <> char_const "a" \/ t2 <> char_const "t") ->
  isCompatible h = Value true /\ Subchunk2ID h <> tag "d" "a" "t" "a".
Proof.
  intros Ha Hn Hs Hb Hid Hne. split.
  - rewrite isCompatible_eval. f_equal. apply compat_cond_true.
    rewrite Hid. cbn [byte0 byte3]. tauto.
  - rewrite Hid. unfold tag. intros E. injection E as E1 E2. tauto.
Qed.

Lemma isCompatible_weak_tag_witness :
  Subchunk2ID hdr_dXXa = tag "d" "X" "X" "a" /\
  isCompatible hdr_dXXa = Value true /\
  Subchunk2ID hdr_dXXa <> tag "d" "a" "t" "a".
Proof.
  split; [reflexivity|].
  apply (isCompatible_weak_tag hdr_dXXa (char_const "X") (char_const "X"));
    try reflexivity.
  - left; reflexivity.
  - left; discriminate.
Defined.

(** C10. Two headers that agree on [AudioFormat], [NumOfChan],
    [SamplesPerSec], [bitsPerSample], [Subchunk2ID[0]] and [Subchunk2ID[3]]
    get the same answer from [isCompatible]; the answer does not change
    when the RIFF, WAVE and fmt tags, [ChunkSize], [Subchunk1Size],
    [bytesPerSec], [blockAlign], [Subchunk2Size] and bytes 1 and 2 of
    [Subchunk2ID] are replaced; and a header whose RIFF and WAVE tags are
    corrupt is reported compatible. *)
Theorem isCompatible_reads_six_values :
  (forall h1 h2 : wavHeader_t,
     same_compat_inputs h1 h2 -> isCompatible h1 = isCompatible h2) /\
  (forall (h : wavHeader_t) (riff wave fmt' : bytes4) (cs s1 bps ba s2 : Z)
          (t1 t2 : Z),
     isCompatible
       (mkWavHeader riff cs wave fmt' s1 (AudioFormat h) (NumOfChan h)
          (SamplesPerSec h) bps ba (bitsPerSample h)
          (B4 (byte0 (Subchunk2ID h)) t1 t2 (byte3 (Subchunk2ID h))) s2)
     = isCompatible h) /\
  (RIFF hdr_bad_magic <> tag "R" "I" "F" "F" /\
   WAVE hdr_bad_magic <> tag "W" "A" "V" "E" /\
   isCompatible hdr_bad_magic = Value true).
Proof.
  split; [|split; [|split; [|split]]].
  - intros h1 h2 H. rewrite !isCompatible_eval. f_equal.
    now apply compat_cond_ext.
  - intros. rewrite !isCompatible_eval. reflexivity.
  - discriminate.
  - discriminate.
  - reflexivity.
Qed.

Lemma isCompatible_reads_six_values_witness :
  same_compat_inputs hdr_mono hdr_bad_magic /\
  isCompatible hdr_mono = isCompatible hdr_bad_magic.
Proof.
  assert (H : same_compat_inputs hdr_mono hdr_bad_magic)
    by (repeat split; reflexivity).
  split; [exact H|].
  exact (proj1 isCompatible_reads_six_values hdr_mono hdr_bad_magic H).
Defined.

(** ** The payload length *)

(** C5. For every header [h], [wavLength h] is [Subchunk2Size] as it
    stands, an unsigned 32-bit value when the header is well formed, and
    it depends on no other field. *)
Theorem wavLength_verbatim (h : wavHeader_t) :
  wavLength h = Value (Subchunk2Size h) /\
  (wf_header h = true -> 0 <= Subchunk2Size h < 2 ^ 32) /\
  (forall h' : wavHeader_t,
     Subchunk2Size h' = Subchunk2Size h -> wavLength h' = wavLength h).
Proof.
  split; [reflexivity|split].
  - intros H. fields_in_range H. tauto.
  - intros h' E. unfold wavLength, WAV_LEN, load. cbn [fst]. now rewrite E.
Qed.

Lemma wavLength_verbatim_witness :
  wavLength hdr_mono = Value 32000 /\ 0 <= 32000 < 2 ^ 32 /\
  wavLength hdr_bad_magic = wavLength hdr_mono.
Proof.
  destruct (wavLength_verbatim hdr_mono) as (Hv & Hr & Hd).
  split; [exact Hv|]. split; [exact (Hr eq_refl)|].
  apply Hd. reflexivity.
Defined.

(** ** The sample count *)

Lemma quot8_bounds (b : Z) : 0 <= b < 2 ^ 16 -> 0 <= Z.quot b 8 <= 8191.
Proof.
  intros Hb. rewrite Z.quot_div_nonneg by lia. split.
  - apply Z.div_pos; lia.
  - apply Z.lt_succ_r. apply Z.div_lt_upper_bound; lia.
Qed.

Lemma int_div_8 (b : Z) : int_div b 8 = Value (Z.quot b 8).
Proof. unfold int_div. cbn [Z.eqb]. now rewrite andb_false_r. Qed.

(** On a well-formed header the divisor is computed without overflow, and
    its conversion to [unsigned int] keeps its value. *)
Lemma WAV_NSAMPLES_divisor_eval (h : wavHeader_t) :
  wf_header h = true ->
  WAV_NSAMPLES_divisor h = (Value (Z.quot (bitsPerSample h) 8 * NumOfChan h), h) /\
  uint_of_int (Z.quot (bitsPerSample h) 8 * NumOfChan h)
  = Z.quot (bitsPerSample h) 8 * NumOfChan h.
Proof.
  intros H. fields_in_range H.
  assert (Hq : 0 <= Z.quot (bitsPerSample h) 8 <= 8191)
    by (apply quot8_bounds; tauto).
  assert (Hn : 0 <= NumOfChan h < 2 ^ 16) by tauto.
  assert (Hp : 0 <= Z.quot (bitsPerSample h) 8 * NumOfChan h < 2 ^ 31) by nia.
  split.
  - unfold WAV_NSAMPLES_divisor, bind, load, lift. rewrite int_div_8.
    unfold int_mul, in_int, INT_MIN, INT_MAX.
    replace ((- 2 ^ 31 <=? Z.quot (bitsPerSample h) 8 * NumOfChan h)
             && (Z.quot (bitsPerSample h) 8 * NumOfChan h <=? 2 ^ 31 - 1))
      with true; [reflexivity|].
    symmetry. apply andb_true_iff. rewrite !Z.leb_le. lia.
  - unfold uint_of_int. apply Z.mod_small. lia.
Qed.

Lemma WAV_NSAMPLES_eval (h : wavHeader_t) :
  wf_header h = true ->
  WAV_NSAMPLES h
  = (uint_div (Subchunk2Size h) (Z.quot (bitsPerSample h) 8 * NumOfChan h), h).
Proof.
  intros H. destruct (WAV_NSAMPLES_divisor_eval h H) as (Hd & Hu).
  unfold WAV_NSAMPLES, bind, WAV_LEN, load. rewrite Hd. unfold lift.
  now rewrite Hu.
Qed.

Lemma degenerate_divisor (h : wavHeader_t) :
  wf_header h = true -> bitsPerSample h < 8 \/ NumOfChan h = 0 ->
  Z.quot (bitsPerSample h) 8 * NumOfChan h = 0.
Proof.
  intros H [Hb | Hn].
  - fields_in_range H. rewrite Z.quot_small by lia. reflexivity.
  - rewrite Hn. apply Z.mul_0_r.
Qed.

(** C2. For every well-formed header whose divisor
    [(bitsPerSample / 8) * NumOfChan] is nonzero, [wavSampleCount] is
    [Subchunk2Size] divided by that product, both divisions truncating and
    taken in that order; with 16 bits and 2 channels, 4000 bytes give 1000
    and 4001 bytes give 1000 too. *)
Theorem wavSampleCount_value (h : wavHeader_t) :
  wf_header h = true ->
  Z.quot (bitsPerSample h) 8 * NumOfChan h <> 0 ->
  wavSampleCount h
  = Value (Z.quot (Subchunk2Size h) (Z.quot (bitsPerSample h) 8 * NumOfChan h)) /\
  (bitsPerSample h = 16 -> NumOfChan h = 2 ->
   (Subchunk2Size h = 4000 -> wavSampleCount h = Value 1000) /\
   (Subchunk2Size h = 4001 -> wavSampleCount h = Value 1000)).
Proof.
  intros H Hd.
  assert (E : wavSampleCount h
              = Value (Z.quot (Subchunk2Size h)
                         (Z.quot (bitsPerSample h) 8 * NumOfChan h))).
  { unfold wavSampleCount. rewrite WAV_NSAMPLES_eval by exact H.
    cbn [fst]. unfold uint_div.
    destruct (Z.eqb_spec (Z.quot (bitsPerSample h) 8 * NumOfChan h) 0);
      [contradiction|reflexivity]. }
  split; [exact E|].
  intros Hb Hn. rewrite E, Hb, Hn.
  split; intros ->; reflexivity.
Qed.

Lemma wavSampleCount_value_witness :
  wavSampleCount hdr_stereo_4000 = Value 1000 /\
  wavSampleCount hdr_stereo_4001 = Value (Z.quot 4001 (Z.quot 16 8 * 2)) /\
  wavSampleCount hdr_stereo_4001 = Value 1000.
Proof.
  assert (D : Z.quot 16 8 * 2 <> 0) by discriminate.
  destruct (wavSampleCount_value hdr_stereo_4000 eq_refl D) as (_ & H0).
  destruct (wavSampleCount_value hdr_stereo_4001 eq_refl D) as (H1 & H2).
  split; [exact (proj1 (H0 eq_refl eq_refl) eq_refl)|].
  split; [exact H1|exact (proj2 (H2 eq_refl eq_refl) eq_refl)].
Defined.

(** C3, as the code has it.  For every well-formed header with
    [bitsPerSample < 8] or [NumOfChan = 0] the divisor is zero and
    [WAV_NSAMPLES] divides by it: the behaviour is undefined, and no error
    result is reported. *)
Theorem wavSampleCount_degenerate (h : wavHeader_t) :
  wf_header h = true -> bitsPerSample h < 8 \/ NumOfChan h = 0 ->
  sampleDivisor h = Value 0 /\
  wavSampleCount h = Undefined /\
  forall k : ErrorKind, wavSampleCount h <> ErrorResult k.
Proof.
  intros H Hdeg. pose proof (degenerate_divisor h H Hdeg) as Hz.
  assert (E : wavSampleCount h = Undefined).
  { unfold wavSampleCount. rewrite WAV_NSAMPLES_eval by exact H.
    rewrite Hz. reflexivity. }
  split; [|split].
  - unfold sampleDivisor.
    rewrite (proj1 (WAV_NSAMPLES_divisor_eval h H)), Hz. reflexivity.
  - exact E.
  - intros k. rewrite E. discriminate.
Qed.

Lemma wavSampleCount_degenerate_witness :
  sampleDivisor hdr_no_channels = Value 0 /\
  wavSampleCount hdr_no_channels = Undefined /\
  forall k : ErrorKind, wavSampleCount hdr_no_channels <> ErrorResult k.
Proof.
  apply (wavSampleCount_degenerate hdr_no_channels).
  - reflexivity.
  - right; reflexivity.
Defined.

(** C3 as the specification states it fails: on a well-formed header with
    no channel the sample count is not an error result of any kind. *)
Lemma wavSampleCount_reports_no_error :
  wf_header hdr_no_channels = true /\
  NumOfChan hdr_no_channels = 0 /\
  ~ (exists k : ErrorKind, wavSampleCount hdr_no_channels = ErrorResult k).
Proof.
  split; [reflexivity|]. split; [reflexivity|].
  intros [k Hk]. discriminate Hk.
Qed.

(** C9. On every header that [isCompatible] accepts, the divisor of
    [wavSampleCount] is [(16 / 8) * NumOfChan], which is 2 or 4, so it is
    not zero and the division is defined. *)
Theorem compatible_divisor_nonzero (h : wavHeader_t) :
  isCompatible h = Value true ->
  sampleDivisor h = Value (Z.quot 16 8 * NumOfChan h) /\
  (Z.quot 16 8 * NumOfChan h = 2 \/ Z.quot 16 8 * NumOfChan h = 4) /\
  Z.quot 16 8 * NumOfChan h <> 0 /\
  uint_of_int (Z.quot 16 8 * NumOfChan h) <> 0 /\
  wavSampleCount h
  = Value (Z.quot (Subchunk2Size h) (Z.quot 16 8 * NumOfChan h)).
Proof.
  rewrite isCompatible_eval. intros H. injection H as H.
  apply compat_cond_true in H. destruct H as (_ & Hn & _ & Hb & _).
  unfold sampleDivisor, wavSampleCount, WAV_NSAMPLES, WAV_NSAMPLES_divisor,
    WAV_LEN, bind, load, lift.
  rewrite Hb. destruct Hn as [-> | ->]; cbn [fst];
    (split; [reflexivity|]); (split; [auto|]); (split; [discriminate|]);
    (split; [discriminate|reflexivity]).
Qed.

Lemma compatible_divisor_nonzero_witness :
  sampleDivisor hdr_stereo_4001 = Value 4 /\
  wavSampleCount hdr_stereo_4001 = Value 1000.
Proof.
  destruct (compatible_divisor_nonzero hdr_stereo_4001 eq_refl)
    as (Hd & _ & _ & _ & Hc).
  split; [exact Hd|exact Hc].
Defined.

(** ** Purity *)

(** C8, as the code has it.  On every header [TEST_WAV_COMPAT] and
    [WAV_LEN] return a value that is a function of the fields they read
    and leave the header unchanged; on a well-formed header [WAV_NSAMPLES]
    does so exactly when its divisor is not zero. *)
Theorem macros_return_unchanged (h : wavHeader_t) :
  TEST_WAV_COMPAT h = (Value (c_truth (compat_cond h)), h) /\
  WAV_LEN h = (Value (Subchunk2Size h), h) /\
  (wf_header h = true ->
   (Z.quot (bitsPerSample h) 8 * NumOfChan h <> 0 ->
    WAV_NSAMPLES h
    = (Value (Z.quot (Subchunk2Size h)
                (Z.quot (bitsPerSample h) 8 * NumOfChan h)), h)) /\
   (returns_unchanged WAV_NSAMPLES h <->
    Z.quot (bitsPerSample h) 8 * NumOfChan h <> 0)).
Proof.
  split; [apply TEST_WAV_COMPAT_eval|]. split; [reflexivity|].
  intros H. unfold returns_unchanged.
  rewrite (WAV_NSAMPLES_eval h H). unfold uint_div.
  destruct (Z.eqb_spec (Z.quot (bitsPerSample h) 8 * NumOfChan h) 0) as [E|E];
    cbv iota.
  - split; [contradiction|].
    split; [intros [v Hv]; discriminate Hv|contradiction].
  - split; [reflexivity|].
    split; [intros _; exact E|intros _; eexists; reflexivity].
Qed.

Lemma macros_return_unchanged_witness :
  WAV_NSAMPLES hdr_stereo_4001 = (Value 1000, hdr_stereo_4001) /\
  returns_unchanged WAV_NSAMPLES hdr_stereo_4001.
Proof.
  destruct (macros_return_unchanged hdr_stereo_4001) as (_ & _ & H).
  destruct (H eq_refl) as [Hv Hr].
  split; [apply Hv; discriminate|apply Hr; discriminate].
Defined.

(** C8 as the specification states it fails: on a well-formed header with
    no channel [WAV_NSAMPLES] divides by zero and returns no value. *)
Lemma WAV_NSAMPLES_not_pure_everywhere :
  wf_header hdr_no_channels = true /\
  WAV_NSAMPLES hdr_no_channels = (Undefined, hdr_no_channels) /\
  ~ returns_unchanged WAV_NSAMPLES hdr_no_channels.
Proof.
  split; [reflexivity|]. split; [reflexivity|].
  intros [v Hv]. discriminate Hv.
Qed.

(** ** The serialized form *)

Lemma le_value_le_bytes (w : nat) :
  forall v : Z, 0 <= v < 256 ^ Z.of_nat w -> le_value (le_bytes w v) = v.
Proof.
  induction w as [|w IH]; intros v Hv.
  - cbn in Hv. cbn [le_bytes le_value]. lia.
  - cbn [le_bytes le_value].
    rewrite Nat2Z.inj_succ, Z.pow_succ_r in Hv by lia.
    rewrite IH.
    + pose proof (Z.div_mod v 256). lia.
    + split; [apply Z.div_pos; lia|apply Z.div_lt_upper_bound; lia].
Qed.

Lemma le_value_u16 (v : Z) :
  0 <= v < 2 ^ 16 -> le_value (le_bytes 2 v) = v.
Proof. intros Hv. apply le_value_le_bytes. exact Hv. Qed.

Lemma le_value_u32 (v : Z) :
  0 <= v < 2 ^ 32 -> le_value (le_bytes 4 v) = v.
Proof. intros Hv. apply le_value_le_bytes. exact Hv. Qed.

Lemma le_bytes_length (w : nat) : forall v : Z, List.length (le_bytes w v) = w.
Proof. induction w as [|w IH]; intros v; cbn [le_bytes List.length]; auto. Qed.

(** Byte [i] of the little-endian form has weight [256 ^ i]. *)
Lemma nth_le_bytes (w : nat) :
  forall (i : nat) (v : Z), (i < w)%nat ->
    nth i (le_bytes w v) 0 = (v / 256 ^ Z.of_nat i) mod 256.
Proof.
  induction w as [|w IH]; intros i v Hi; [lia|].
  destruct i as [|i]; cbn [le_bytes nth].
  - now rewrite Z.div_1_r.
  - rewrite IH by lia.
    rewrite Nat2Z.inj_succ, Z.pow_succ_r, Z.div_div by lia. reflexivity.
Qed.

(** The encoder's output, field after field. *)
Lemma encode_fields (h : wavHeader_t) :
  encode h =
    [byte0 (RIFF h); byte1 (RIFF h); byte2 (RIFF h); byte3 (RIFF h)]
    ++ le_bytes 4 (ChunkSize h)
    ++ [byte0 (WAVE h); byte1 (WAVE h); byte2 (WAVE h); byte3 (WAVE h)]
    ++ [byte0 (fmt h); byte1 (fmt h); byte2 (fmt h); byte3 (fmt h)]
    ++ le_bytes 4 (Subchunk1Size h)
    ++ le_bytes 2 (AudioFormat h)
    ++ le_bytes 2 (NumOfChan h)
    ++ le_bytes 4 (SamplesPerSec h)
    ++ le_bytes 4 (bytesPerSec h)
    ++ le_bytes 2 (blockAlign h)
    ++ le_bytes 2 (bitsPerSample h)
    ++ [byte0 (Subchunk2ID h); byte1 (Subchunk2ID h); byte2 (Subchunk2ID h);
        byte3 (Subchunk2ID h)]
    ++ le_bytes 4 (Subchunk2Size h).
Proof.
  unfold encode, wavHeader_members. cbn [flat_map encode_member sizeof].
  now rewrite app_nil_r.
Qed.

Lemma encode_length (h : wavHeader_t) : List.length (encode h) = 44%nat.
Proof.
  rewrite encode_fields. repeat rewrite length_app.
  now rewrite !le_bytes_length.
Qed.

(** What the decoder reads in the encoder's output, before any
    arithmetic: each tag byte for byte, each integer as the value of its
    own little-endian form. *)
Lemma decode_encode_fields (h : wavHeader_t) :
  decode (encode h) =
  Some {| RIFF := B4 (byte0 (RIFF h)) (byte1 (RIFF h)) (byte2 (RIFF h)) (byte3 (RIFF h));
          ChunkSize := le_value (le_bytes 4 (ChunkSize h));
          WAVE := B4 (byte0 (WAVE h)) (byte1 (WAVE h)) (byte2 (WAVE h)) (byte3 (WAVE h));
          fmt := B4 (byte0 (fmt h)) (byte1 (fmt h)) (byte2 (fmt h)) (byte3 (fmt h));
          Subchunk1Size := le_value (le_bytes 4 (Subchunk1Size h));
          AudioFormat := le_value (le_bytes 2 (AudioFormat h));
          NumOfChan := le_value (le_bytes 2 (NumOfChan h));
          SamplesPerSec := le_value (le_bytes 4 (SamplesPerSec h));
          bytesPerSec := le_value (le_bytes 4 (bytesPerSec h));
          blockAlign := le_value (le_bytes 2 (blockAlign h));
          bitsPerSample := le_value (le_bytes 2 (bitsPerSample h));
          Subchunk2ID := B4 (byte0 (Subchunk2ID h)) (byte1 (Subchunk2ID h))
                           (byte2 (Subchunk2ID h)) (byte3 (Subchunk2ID h));
          Subchunk2Size := le_value (le_bytes 4 (Subchunk2Size h)) |}.
Proof.
  unfold decode. rewrite encode_length. cbn [Nat.eqb].
  rewrite encode_fields. reflexivity.
Qed.

(** C7. For every header whose fields are within their declared widths,
    decoding the 44 bytes the header encodes to gives the header back,
    field for field. *)
Theorem decode_encode (h : wavHeader_t) :
  wf_header h = true -> decode (encode h) = Some h.
Proof.
  intros H. fields_in_range H.
  rewrite decode_encode_fields.
  rewrite !le_value_u32, !le_value_u16 by tauto.
  destruct h as [[? ? ? ?] ? [? ? ? ?] [? ? ? ?] ? ? ? ? ? ? ? [? ? ? ?] ?].
  reflexivity.
Qed.

Lemma decode_encode_witness :
  List.length (encode hdr_stereo_4001) = 44%nat /\
  decode (encode hdr_stereo_4001) = Some hdr_stereo_4001.
Proof.
  split; [reflexivity|].
  apply (decode_encode hdr_stereo_4001). reflexivity.
Defined.

Ltac member_at :=
  cbn [encoded_at sizeof slot_offset]; intros i Hi;
  try rewrite <- (nth_le_bytes _ _ _ Hi);
  do 4 (destruct i as [|i]; [first [exfalso; lia | reflexivity]|]);
  lia.

(** C6. The struct has 13 members; laid out in declaration order with
    natural alignment they sit at the offsets and take the sizes of the
    table of section 3, the struct takes 44 bytes and none of them is
    padding; the serialized form of every header is 44 bytes long and
    holds, at the offset of each row, the tag byte for byte or the integer
    least significant byte first, whatever the host. *)
Theorem wavHeader_layout :
  List.length wavHeader_members = 13%nat /\
  layout wavHeader_members = spec_layout /\
  struct_size wavHeader_members = 44%nat /\
  struct_padding wavHeader_members = 0%nat /\
  forall h : wavHeader_t,
    List.length (encode h) = 44%nat /\
    Forall2 (fun s m => encoded_at h (slot_offset s) m)
      spec_layout wavHeader_members.
Proof.
  split; [reflexivity|]. split; [reflexivity|].
  split; [reflexivity|]. split; [reflexivity|].
  intros h. split; [apply encode_length|].
  unfold spec_layout, wavHeader_members.
  repeat (apply Forall2_cons; [member_at|]).
  apply Forall2_nil.
Qed.

(** On the canonical mono header: 44 bytes, and the sampling rate
    16000 = 0x3E80 at offset 24 as the bytes 0x80, 0x3E, 0, 0. *)
Lemma wavHeader_layout_witness :
  List.length (encode hdr_mono) = 44%nat /\
  nth 24 (encode hdr_mono) 0 = 128 /\ nth 25 (encode hdr_mono) 0 = 62 /\
  nth 26 (encode hdr_mono) 0 = 0 /\ nth 27 (encode hdr_mono) 0 = 0.
Proof.
  destruct wavHeader_layout as (_ & _ & _ & _ & H).
  destruct (H hdr_mono) as [Hlen HF].
  split; [exact Hlen|].
  unfold spec_layout, wavHeader_members in HF.
  do 7 (apply Forall2_cons_iff in HF; destruct HF as [_ HF]).
  apply Forall2_cons_iff in HF. destruct HF as [Hrate _].
  cbn [encoded_at slot_offset sizeof] in Hrate.
  split; [exact (Hrate 0%nat (Nat.lt_0_succ 3))|].
  split; [exact (Hrate 1%nat (proj1 (Nat.succ_lt_mono 0 3) (Nat.lt_0_succ 2)))|].
  split; [exact (Hrate 2%nat ltac:(lia))|exact (Hrate 3%nat ltac:(lia))].
Defined.

(** ** Further properties of the macros *)

Lemma divisor_zero_iff (b n : Z) :
  0 <= b -> 0 <= n ->
  (Z.quot b 8 * n = 0 <-> b < 8 \/ n = 0).
Proof.
  intros Hb Hn. rewrite Z.mul_eq_0, Z.quot_small_iff by lia. lia.
Qed.

Lemma uint_div_value (a d n : Z) :
  uint_div a d = Value n -> d <> 0 /\ n = Z.quot a d.
Proof.
  unfold uint_div. destruct (Z.eqb_spec d 0); [discriminate|].
  intros E. injection E as E. auto.
Qed.

(** What [WAV_NSAMPLES] computes on any header, well formed or not, once
    the constant divisor 8 is seen to be harmless. *)
Lemma WAV_NSAMPLES_unfold (h : wavHeader_t) :
  WAV_NSAMPLES h =
  match int_mul (Z.quot (bitsPerSample h) 8) (NumOfChan h) with
  | Value d => (uint_div (Subchunk2Size h) (uint_of_int d), h)
  | ErrorResult e => (ErrorResult e, h)
  | Undefined => (Undefined, h)
  end.
Proof.
  unfold WAV_NSAMPLES, WAV_NSAMPLES_divisor, WAV_LEN, bind, load, lift.
  rewrite int_div_8. reflexivity.
Qed.

(** X1. On a well-formed header the multiplication of the divisor never
    overflows [int]; [WAV_NSAMPLES] is undefined exactly when
    [bitsPerSample < 8] or [NumOfChan = 0], and returns a value otherwise. *)
Theorem wavSampleCount_fault_set (h : wavHeader_t) :
  wf_header h = true ->
  (exists d : Z, sampleDivisor h = Value d /\ 0 <= d <= 8191 * 65535 /\ d <= INT_MAX) /\
  (wavSampleCount h = Undefined <-> bitsPerSample h < 8 \/ NumOfChan h = 0) /\
  (8 <= bitsPerSample h -> 1 <= NumOfChan h ->
   exists n : Z, wavSampleCount h = Value n).
Proof.
  intros H. pose proof (wf_header_ranges h H) as R.
  destruct (WAV_NSAMPLES_divisor_eval h H) as (Hd & _).
  pose proof (WAV_NSAMPLES_eval h H) as Hn.
  assert (Hq : 0 <= Z.quot (bitsPerSample h) 8 <= 8191)
    by (apply quot8_bounds; tauto).
  assert (Hz : Z.quot (bitsPerSample h) 8 * NumOfChan h = 0
               <-> bitsPerSample h < 8 \/ NumOfChan h = 0)
    by (apply divisor_zero_iff; lia).
  unfold wavSampleCount, sampleDivisor. rewrite Hn, Hd. cbn [fst].
  unfold uint_div, INT_MAX.
  split; [|split].
  - eexists. split; [reflexivity|]. nia.
  - destruct (Z.eqb_spec (Z.quot (bitsPerSample h) 8 * NumOfChan h) 0) as [E|E].
    + split; [intros _; now apply Hz|reflexivity].
    + split; [discriminate|]. intros D. apply Hz in D. contradiction.
  - intros Hb Hc.
    destruct (Z.eqb_spec (Z.quot (bitsPerSample h) 8 * NumOfChan h) 0) as [E|E].
    + apply Hz in E. lia.
    + eexists. reflexivity.
Qed.

Lemma wavSampleCount_fault_set_witness :
  (wavSampleCount hdr_no_channels = Undefined <->
   bitsPerSample hdr_no_channels < 8 \/ NumOfChan hdr_no_channels = 0) /\
  exists n : Z, wavSampleCount hdr_stereo_4001 = Value n.
Proof.
  split.
  - exact (proj1 (proj2 (wavSampleCount_fault_set hdr_no_channels eq_refl))).
  - apply (proj2 (proj2 (wavSampleCount_fault_set hdr_stereo_4001 eq_refl)));
      discriminate.
Defined.

(** X2. When [WAV_NSAMPLES] returns [n] on a well-formed header, [n] frames
    of [(bitsPerSample / 8) * NumOfChan] bytes fit in the [WAV_LEN] bytes
    of the payload and less than one frame is left over; [n] never exceeds
    [WAV_LEN] and is an unsigned 32-bit value. *)
Theorem wavSampleCount_within_payload (h : wavHeader_t) (n : Z) :
  wf_header h = true -> wavSampleCount h = Value n ->
  n * (Z.quot (bitsPerSample h) 8 * NumOfChan h) <= Subchunk2Size h
    < (n + 1) * (Z.quot (bitsPerSample h) 8 * NumOfChan h) /\
  0 <= n <= Subchunk2Size h /\ n < 2 ^ 32 /\
  wavLength h = Value (Subchunk2Size h).
Proof.
  intros H Hn. pose proof (wf_header_ranges h H) as R.
  unfold wavSampleCount in Hn. rewrite (WAV_NSAMPLES_eval h H) in Hn.
  cbn [fst] in Hn. apply uint_div_value in Hn. destruct Hn as [Hd ->].
  assert (Hq : 0 <= Z.quot (bitsPerSample h) 8 <= 8191)
    by (apply quot8_bounds; tauto).
  set (d := Z.quot (bitsPerSample h) 8 * NumOfChan h) in *.
  assert (Hpos : 0 < d) by (subst d; nia).
  rewrite Z.quot_div_nonneg by lia.
  pose proof (Z.mul_div_le (Subchunk2Size h) d Hpos).
  pose proof (Z.mul_succ_div_gt (Subchunk2Size h) d Hpos).
  assert (0 <= Subchunk2Size h / d) by (apply Z.div_pos; lia).
  repeat split; nia.
Qed.

Lemma wavSampleCount_within_payload_witness :
  1000 * (Z.quot 16 8 * 2) <= 4001 < (1000 + 1) * (Z.quot 16 8 * 2).
Proof.
  exact (proj1 (wavSampleCount_within_payload hdr_stereo_4001 1000
                  eq_refl eq_refl)).
Defined.

(** X3. On a well-formed header with a nonzero divisor whose
    [Subchunk2Size] is [k] whole frames, [WAV_NSAMPLES] returns [k]: a
    frame count written as a byte length is read back exactly. *)
Theorem wavSampleCount_whole_frames (h : wavHeader_t) (k : Z) :
  wf_header h = true ->
  Z.quot (bitsPerSample h) 8 * NumOfChan h <> 0 ->
  Subchunk2Size h = k * (Z.quot (bitsPerSample h) 8 * NumOfChan h) ->
  wavSampleCount h = Value k.
Proof.
  intros H Hd Hk. unfold wavSampleCount.
  rewrite (WAV_NSAMPLES_eval h H). cbn [fst]. unfold uint_div.
  destruct (Z.eqb_spec (Z.quot (bitsPerSample h) 8 * NumOfChan h) 0);
    [contradiction|].
  rewrite Hk, Z.quot_mul by assumption. reflexivity.
Qed.

Lemma wavSampleCount_whole_frames_witness :
  wavSampleCount hdr_mono = Value 16000.
Proof.
  apply (wavSampleCount_whole_frames hdr_mono 16000).
  - reflexivity.
  - discriminate.
  - reflexivity.
Defined.

(** X4. [WAV_NSAMPLES] reads [Subchunk2Size], [NumOfChan] and
    [bitsPerSample] only, and the last one only through
    [bitsPerSample / 8]: two headers that agree on these get the same
    outcome, so a bit depth that is no multiple of 8 counts as the next
    lower one (12 bits as 8), and [blockAlign] and [bytesPerSec] play no
    part. *)
Theorem wavSampleCount_reads_three_fields (h1 h2 : wavHeader_t) :
  Subchunk2Size h1 = Subchunk2Size h2 -> NumOfChan h1 = NumOfChan h2 ->
  Z.quot (bitsPerSample h1) 8 = Z.quot (bitsPerSample h2) 8 ->
  wavSampleCount h1 = wavSampleCount h2.
Proof.
  intros Hs Hn Hb. unfold wavSampleCount.
  rewrite !WAV_NSAMPLES_unfold, Hs, Hn, Hb.
  destruct (int_mul (Z.quot (bitsPerSample h2) 8) (NumOfChan h2)); reflexivity.
Qed.

Lemma wavSampleCount_reads_three_fields_witness :
  wavSampleCount
    (mkWavHeader (RIFF hdr_mono) 0 (WAVE hdr_mono) (fmt hdr_mono) 0 7 1 8000 0
       1 12 (Subchunk2ID hdr_mono) 4000)
  = wavSampleCount
      (mkWavHeader (RIFF hdr_mono) 36 (WAVE hdr_mono) (fmt hdr_mono) 16 1 1
         16000 16000 1 8 (Subchunk2ID hdr_mono) 4000).
Proof.
  apply wavSampleCount_reads_three_fields; reflexivity.
Defined.

(** X5. In a header that [TEST_WAV_COMPAT] accepts, replacing one of the
    tested fields by a value [v] leaves it accepted exactly when [v] is the
    value the macro tests for: 1 for [AudioFormat], 1 or 2 for
    [NumOfChan], 16000 for [SamplesPerSec], 16 for [bitsPerSample]; a new
    tag is accepted exactly when its first byte is 'd' and its last 'a'. *)
Theorem isCompatible_one_field (h : wavHeader_t) (v : Z) (t : bytes4) :
  isCompatible h = Value true ->
  isCompatible
    (mkWavHeader (RIFF h) (ChunkSize h) (WAVE h) (fmt h) (Subchunk1Size h)
       v (NumOfChan h) (SamplesPerSec h) (bytesPerSec h) (blockAlign h)
       (bitsPerSample h) (Subchunk2ID h) (Subchunk2Size h))
  = Value (v =? 1) /\
  isCompatible
    (mkWavHeader (RIFF h) (ChunkSize h) (WAVE h) (fmt h) (Subchunk1Size h)
       (AudioFormat h) v (SamplesPerSec h) (bytesPerSec h) (blockAlign h)
       (bitsPerSample h) (Subchunk2ID h) (Subchunk2Size h))
  = Value ((v =? 1) || (v =? 2)) /\
  isCompatible
    (mkWavHeader (RIFF h) (ChunkSize h) (WAVE h) (fmt h) (Subchunk1Size h)
       (AudioFormat h) (NumOfChan h) v (bytesPerSec h) (blockAlign h)
       (bitsPerSample h) (Subchunk2ID h) (Subchunk2Size h))
  = Value (v =? 16000) /\
  isCompatible
    (mkWavHeader (RIFF h) (ChunkSize h) (WAVE h) (fmt h) (Subchunk1Size h)
       (AudioFormat h) (NumOfChan h) (SamplesPerSec h) (bytesPerSec h)
       (blockAlign h) v (Subchunk2ID h) (Subchunk2Size h))
  = Value (v =? 16) /\
  isCompatible
    (mkWavHeader (RIFF h) (ChunkSize h) (WAVE h) (fmt h) (Subchunk1Size h)
       (AudioFormat h) (NumOfChan h) (SamplesPerSec h) (bytesPerSec h)
       (blockAlign h) (bitsPerSample h) t (Subchunk2Size h))
  = Value ((byte0 t =? char_const "d") && (byte3 t =? char_const "a")).
Proof.
  rewrite !isCompatible_eval. intros H. injection H as H.
  apply compat_cond_true in H.
  destruct H as (Ha & Hn & Hs & Hb & H0 & H3).
  assert (Hc : (NumOfChan h =? 1) || (NumOfChan h =? 2) = true)
    by (apply orb_true_iff; rewrite !Z.eqb_eq; exact Hn).
  unfold compat_cond.
  cbn [AudioFormat NumOfChan SamplesPerSec bitsPerSample Subchunk2ID].
  rewrite Hc, Ha, Hs, Hb, H0, H3, !Z.eqb_refl.
  cbn [andb]. rewrite !andb_true_r. repeat split.
Qed.

Lemma isCompatible_one_field_witness :
  isCompatible (pcm16k 3 32000) = Value false /\
  isCompatible hdr_dXXa = Value true.
Proof.
  destruct (isCompatible_one_field hdr_mono 3 (tag "d" "X" "X" "a") eq_refl)
    as (_ & Hn & _ & _ & Ht).
  split.
  - transitivity
      (isCompatible
         (mkWavHeader (RIFF hdr_mono) (ChunkSize hdr_mono) (WAVE hdr_mono)
            (fmt hdr_mono) (Subchunk1Size hdr_mono) (AudioFormat hdr_mono) 3
            (SamplesPerSec hdr_mono) (bytesPerSec hdr_mono)
            (blockAlign hdr_mono) (bitsPerSample hdr_mono)
            (Subchunk2ID hdr_mono) (Subchunk2Size hdr_mono)));
      [reflexivity|exact Hn].
  - exact Ht.
Defined.

(** X6. On a well-formed header that [TEST_WAV_COMPAT] accepts,
    [WAV_NSAMPLES] returns [Subchunk2Size / (2 * NumOfChan)], which is at
    most half of [WAV_LEN] and at most [INT_MAX]: the count of an accepted
    header also fits a signed 32-bit [int]. *)
Theorem compatible_count_fits_int (h : wavHeader_t) :
  wf_header h = true -> isCompatible h = Value true ->
  exists n : Z,
    wavSampleCount h = Value n /\
    n = Z.quot (Subchunk2Size h) (2 * NumOfChan h) /\
    0 <= n /\ 2 * n <= Subchunk2Size h /\ n <= INT_MAX.
Proof.
  intros H Hc. pose proof (wf_header_ranges h H) as R.
  rewrite isCompatible_eval in Hc. injection Hc as Hc.
  apply compat_cond_true in Hc. destruct Hc as (_ & Hn & _ & Hb & _).
  exists (Z.quot (Subchunk2Size h) (2 * NumOfChan h)).
  assert (Hpos : 0 < 2 * NumOfChan h) by lia.
  split.
  - unfold wavSampleCount. rewrite (WAV_NSAMPLES_eval h H), Hb. cbn [fst].
    change (Z.quot 16 8) with 2. unfold uint_div.
    destruct (Z.eqb_spec (2 * NumOfChan h) 0); [lia|reflexivity].
  - split; [reflexivity|].
    rewrite Z.quot_div_nonneg by lia.
    pose proof (Z.mul_div_le (Subchunk2Size h) (2 * NumOfChan h) Hpos).
    assert (0 <= Subchunk2Size h / (2 * NumOfChan h))
      by (apply Z.div_pos; lia).
    unfold INT_MAX. repeat split; nia.
Qed.

Lemma compatible_count_fits_int_witness :
  exists n : Z,
    wavSampleCount hdr_mono = Value n /\
    n = Z.quot (Subchunk2Size hdr_mono) (2 * NumOfChan hdr_mono) /\
    0 <= n /\ 2 * n <= Subchunk2Size hdr_mono /\ n <= INT_MAX.
Proof.
  apply (compatible_count_fits_int hdr_mono); reflexivity.
Defined.

(** X7. With the same [bitsPerSample] and [NumOfChan], a longer payload
    never counts fewer frames: on well-formed headers [WAV_NSAMPLES] is
    monotone in [Subchunk2Size]. *)
Theorem wavSampleCount_monotone (h1 h2 : wavHeader_t) (n1 n2 : Z) :
  wf_header h1 = true -> wf_header h2 = true ->
  bitsPerSample h1 = bitsPerSample h2 -> NumOfChan h1 = NumOfChan h2 ->
  Subchunk2Size h1 <= Subchunk2Size h2 ->
  wavSampleCount h1 = Value n1 -> wavSampleCount h2 = Value n2 ->
  n1 <= n2.
Proof.
  intros H1 H2 Hb Hn Hle E1 E2.
  pose proof (wf_header_ranges h1 H1) as R1.
  pose proof (wf_header_ranges h2 H2) as R2.
  unfold wavSampleCount in E1, E2.
  rewrite (WAV_NSAMPLES_eval h1 H1) in E1.
  rewrite (WAV_NSAMPLES_eval h2 H2) in E2.
  cbn [fst] in E1, E2. rewrite Hb, Hn in E1.
  apply uint_div_value in E1. apply uint_div_value in E2.
  destruct E1 as [Hd ->]. destruct E2 as [_ ->].
  assert (Hq : 0 <= Z.quot (bitsPerSample h2) 8 <= 8191)
    by (apply quot8_bounds; tauto).
  apply Z.quot_le_mono; nia.
Qed.

Lemma wavSampleCount_monotone_witness : 1000 <= 16000.
Proof.
  exact (wavSampleCount_monotone hdr_stereo_4001 (pcm16k 2 64000) 1000 16000
           eq_refl eq_refl eq_refl eq_refl ltac:(discriminate) eq_refl eq_refl).
Defined.
